(** * The TLS 1.3 key scheduler of fizz (fizz/protocol/KeyScheduler.cpp)

    A shallow embedding of [fizz::KeyScheduler].  The scheduler owns two
    optional slots, [secret_] (the chain secret, a variant over the early,
    handshake and master secret) and [appTrafficSecret_] (the application
    traffic secrets with their generation counters), and talks to an injected
    [KeyDerivation] object.  Methods that mutate the scheduler are commands of
    a small state-and-exception monad; [const] methods are functions of the
    scheduler that may throw. *)

From Stdlib Require Import ZArith List String Lia Bool.
From Stdlib.Strings Require Byte.
Import ListNotations.

Local Open Scope string_scope.
Local Open Scope Z_scope.

(** ** Bytes, buffers and the label table *)

(** [folly::ByteRange], [std::vector<uint8_t>] and a coalesced [folly::IOBuf]
    are all read here through the bytes they hold. *)
Definition bytes : Type := list Byte.byte.

(** [Buf] is [std::unique_ptr<folly::IOBuf>]; the scheduler only ever looks at
    the coalesced contents ([buf->coalesce()], then [data()] to [tail()]). *)
Definition Buf : Type := bytes.

(** [folly::IOBuf::create(0)]: a buffer without contents. *)
Definition IOBuf_create0 : Buf := [].

(** [folly::IOBuf::wrapBuffer(r)]: a buffer over the bytes of [r]. *)
Definition IOBuf_wrapBuffer (r : bytes) : Buf := r.

(** [buf->coalesce(); std::vector<uint8_t>(buf->data(), buf->tail())]. *)
Definition coalesced (b : Buf) : bytes := b.

(** [std::vector<uint8_t>(n, 0)]. *)
Definition zero_vector (n : N) : bytes := repeat Byte.x00 (N.to_nat n).

Definition kTrafficKey : string := "key".
Definition kTrafficIv : string := "iv".
Definition kExternalPskBinder : string := "ext binder".
Definition kResumptionPskBinder : string := "res binder".
Definition kClientEarlyTraffic : string := "c e traffic".
Definition kEarlyExporter : string := "e exp master".
Definition kClientHandshakeTraffic : string := "c hs traffic".
Definition kServerHandshakeTraffic : string := "s hs traffic".
Definition kClientAppTraffic : string := "c ap traffic".
Definition kServerAppTraffic : string := "s ap traffic".
Definition kExporterMaster : string := "exp master".
Definition kResumptionMaster : string := "res master".
Definition kDerivedSecret : string := "derived".
Definition kTrafficKeyUpdate : string := "traffic upd".
Definition kResumption : string := "resumption".

(** ** The derivation primitive *)

(** The [KeyDerivation] interface behind [deriver_].  Its implementation
    (HKDF over the negotiated hash) is outside the scheduler; every result
    below holds for any implementation. *)
Class KeyDerivation : Type := {
  hashLength : N;
  hkdfExtract : bytes -> bytes -> bytes;
  deriveSecret : bytes -> string -> bytes -> bytes;
  expandLabel : bytes -> string -> Buf -> N -> Buf;
  blankHash : bytes
}.

(** ** Data model *)

(** The alternatives of [boost::variant<EarlySecret, HandshakeSecret,
    MasterSecret>], each a struct with the single field [secret]. *)
Inductive Secret : Type :=
| EarlySecret (secret : bytes)
| HandshakeSecret (secret : bytes)
| MasterSecret (secret : bytes).

(** A [uint32_t] is an integer in [0, 2^32); [++] wraps. *)
Definition uint32_modulus : Z := 2 ^ 32.

Definition uint32_incr (g : Z) : Z := (g + 1) mod uint32_modulus.

(** Modelled from the spec: the declaration of [struct AppTrafficSecret]
    lives in KeyScheduler.h, which is not part of the sources at hand.  The
    fields are the ones KeyScheduler.cpp uses; by the spec's data model the
    two generation counters are 32-bit unsigned ("client_generation: u32",
    as the [uint32_t] that the key updates return) and a default-constructed
    value has both at 0 ("stores both with generation counters initialized
    to 0"), with empty vectors. *)
Record AppTrafficSecret : Type := mkAppTrafficSecret {
  client : bytes;
  clientGeneration : Z;
  server : bytes;
  serverGeneration : Z
}.

Definition AppTrafficSecret_default : AppTrafficSecret :=
  {| client := []; clientGeneration := 0; server := []; serverGeneration := 0 |}.

(** The selectors of the four [getSecret] overloads.  The [default:] branch
    of each [switch] ([LOG(FATAL)]) is taken by no declared enumerator. *)
Inductive EarlySecrets : Type :=
| ExternalPskBinder | ResumptionPskBinder | ClientEarlyTraffic | EarlyExporter.

Inductive HandshakeSecrets : Type :=
| ClientHandshakeTraffic | ServerHandshakeTraffic.

Inductive MasterSecrets : Type :=
| ExporterMaster | ResumptionMaster.

Inductive AppTrafficSecrets : Type :=
| ClientAppTraffic | ServerAppTraffic.

Record TrafficKey : Type := mkTrafficKey {
  key : Buf;
  iv : Buf
}.

(** The mutable members of a [KeyScheduler]; [folly::Optional] is [option],
    [folly::none] is [None]. *)
Record KeyScheduler : Type := mkKeyScheduler {
  secret_ : option Secret;
  appTrafficSecret_ : option AppTrafficSecret
}.

(** A scheduler as its constructor leaves it: both slots empty. *)
Definition fresh : KeyScheduler :=
  {| secret_ := None; appTrafficSecret_ := None |}.

(** ** Exceptions and the two monads *)

Inductive exn : Type :=
| runtime_error (what : string)   (* std::runtime_error *)
| OptionalEmptyException          (* folly::Optional dereferenced while empty *)
| bad_get.                        (* boost::get on another alternative *)

(** The outcome of a call: an exception or a value. *)
Inductive result (A : Type) : Type :=
| Throw (e : exn)
| Return (a : A).

Arguments Throw {A} e.
Arguments Return {A} a.

Definition result_bind {A B : Type} (r : result A) (k : A -> result B)
  : result B :=
  match r with
  | Throw e => Throw e
  | Return a => k a
  end.

(** A command runs on a scheduler and leaves a scheduler behind, also when it
    throws: whatever was assigned before the exception stays assigned. *)
Definition M (A : Type) : Type := KeyScheduler -> result A * KeyScheduler.

Definition ret {A : Type} (a : A) : M A := fun ks => (Return a, ks).

Definition throw {A : Type} (e : exn) : M A := fun ks => (Throw e, ks).

Definition bind {A B : Type} (m : M A) (k : A -> M B) : M B :=
  fun ks =>
    match m ks with
    | (Throw e, ks') => (Throw e, ks')
    | (Return a, ks') => k a ks'
    end.

Definition lift {A : Type} (r : result A) : M A := fun ks => (r, ks).

Declare Scope sched_scope.
Delimit Scope sched_scope with sched.
Notation "x <- m ;; k" := (bind m (fun x => k))
  (at level 61, m at next level, right associativity) : sched_scope.
Notation "m ;; k" := (bind m (fun _ => k))
  (at level 61, right associativity) : sched_scope.
Notation "x <-? r ;; k" := (result_bind r (fun x => k))
  (at level 61, r at next level, right associativity) : sched_scope.
Local Open Scope sched_scope.

Definition get_secret_ : M (option Secret) := fun ks => (Return (secret_ ks), ks).

Definition set_secret_ (s : option Secret) : M unit :=
  fun ks => (Return tt, {| secret_ := s; appTrafficSecret_ := appTrafficSecret_ ks |}).

Definition get_appTrafficSecret_ : M (option AppTrafficSecret) :=
  fun ks => (Return (appTrafficSecret_ ks), ks).

Definition set_appTrafficSecret_ (a : option AppTrafficSecret) : M unit :=
  fun ks => (Return tt, {| secret_ := secret_ ks; appTrafficSecret_ := a |}).

(** [*opt] on a [folly::Optional]: [value()], which throws when empty. *)
Definition deref {A : Type} (o : option A) : result A :=
  match o with
  | Some a => Return a
  | None => Throw OptionalEmptyException
  end.

(** [boost::get<T>(v)] for the three alternatives, down to the [secret]
    field that every caller reads next. *)
Definition get_EarlySecret (v : Secret) : result bytes :=
  match v with
  | EarlySecret s => Return s
  | _ => Throw bad_get
  end.

Definition get_HandshakeSecret (v : Secret) : result bytes :=
  match v with
  | HandshakeSecret s => Return s
  | _ => Throw bad_get
  end.

Definition get_MasterSecret (v : Secret) : result bytes :=
  match v with
  | MasterSecret s => Return s
  | _ => Throw bad_get
  end.

(** In-place assignment to one field of the [AppTrafficSecret] the optional
    holds ([appTrafficSecret.client = ...] through the reference). *)
Definition with_client (c : bytes) (a : AppTrafficSecret) : AppTrafficSecret :=
  {| client := c; clientGeneration := clientGeneration a;
     server := server a; serverGeneration := serverGeneration a |}.

Definition with_clientGeneration (g : Z) (a : AppTrafficSecret) : AppTrafficSecret :=
  {| client := client a; clientGeneration := g;
     server := server a; serverGeneration := serverGeneration a |}.

Definition with_server (s : bytes) (a : AppTrafficSecret) : AppTrafficSecret :=
  {| client := client a; clientGeneration := clientGeneration a;
     server := s; serverGeneration := serverGeneration a |}.

Definition with_serverGeneration (g : Z) (a : AppTrafficSecret) : AppTrafficSecret :=
  {| client := client a; clientGeneration := clientGeneration a;
     server := server a; serverGeneration := g |}.

(** ** The methods of [KeyScheduler] *)

Section Scheduler.

Context {deriver_ : KeyDerivation}.

(** [void deriveEarlySecret(folly::ByteRange psk)] *)
Definition deriveEarlySecret (psk : bytes) : M unit :=
  s <- get_secret_ ;;
  match s with
  | Some _ => throw (runtime_error "secret already set")
  | None =>
      let zeros := zero_vector hashLength in
      set_secret_ (Some (EarlySecret (hkdfExtract zeros psk)))
  end.

(** [void deriveHandshakeSecret()] *)
Definition deriveHandshakeSecret : M unit :=
  s <- get_secret_ ;;
  earlySecret <- lift (v <-? deref s ;; get_EarlySecret v) ;;
  let zeros := zero_vector hashLength in
  let preSecret := deriveSecret earlySecret kDerivedSecret blankHash in
  set_secret_ (Some (HandshakeSecret (hkdfExtract preSecret zeros))).

(** [void deriveHandshakeSecret(folly::ByteRange ecdhe)] *)
Definition deriveHandshakeSecret_ecdhe (ecdhe : bytes) : M unit :=
  s <- get_secret_ ;;
  match s with
  | None =>
      let zeros := zero_vector hashLength in
      set_secret_ (Some (EarlySecret (hkdfExtract zeros zeros)))
  | Some _ => ret tt
  end ;;
  s <- get_secret_ ;;
  earlySecret <- lift (v <-? deref s ;; get_EarlySecret v) ;;
  let preSecret := deriveSecret earlySecret kDerivedSecret blankHash in
  set_secret_ (Some (HandshakeSecret (hkdfExtract preSecret ecdhe))).

(** [void deriveMasterSecret()] *)
Definition deriveMasterSecret : M unit :=
  let zeros := zero_vector hashLength in
  s <- get_secret_ ;;
  handshakeSecret <- lift (v <-? deref s ;; get_HandshakeSecret v) ;;
  let preSecret := deriveSecret handshakeSecret kDerivedSecret blankHash in
  set_secret_ (Some (MasterSecret (hkdfExtract preSecret zeros))).

(** [void deriveAppTrafficSecrets(folly::ByteRange transcript)] *)
Definition deriveAppTrafficSecrets (transcript : bytes) : M unit :=
  s <- get_secret_ ;;
  masterSecret <- lift (v <-? deref s ;; get_MasterSecret v) ;;
  let trafficSecret := AppTrafficSecret_default in
  let trafficSecret :=
    with_client (deriveSecret masterSecret kClientAppTraffic transcript)
                trafficSecret in
  let trafficSecret :=
    with_server (deriveSecret masterSecret kServerAppTraffic transcript)
                trafficSecret in
  set_appTrafficSecret_ (Some trafficSecret).

(** [void clearMasterSecret()] *)
Definition clearMasterSecret : M unit :=
  s <- get_secret_ ;;
  _ <- lift (v <-? deref s ;; get_MasterSecret v) ;;
  set_secret_ None.

(** [uint32_t clientKeyUpdate()] *)
Definition clientKeyUpdate : M Z :=
  o <- get_appTrafficSecret_ ;;
  appTrafficSecret <- lift (deref o) ;;
  let buf :=
    expandLabel (client appTrafficSecret) kTrafficKeyUpdate IOBuf_create0
                hashLength in
  let appTrafficSecret := with_client (coalesced buf) appTrafficSecret in
  let appTrafficSecret :=
    with_clientGeneration (uint32_incr (clientGeneration appTrafficSecret))
                          appTrafficSecret in
  set_appTrafficSecret_ (Some appTrafficSecret) ;;
  ret (clientGeneration appTrafficSecret).

(** [uint32_t serverKeyUpdate()] *)
Definition serverKeyUpdate : M Z :=
  o <- get_appTrafficSecret_ ;;
  appTrafficSecret <- lift (deref o) ;;
  let buf :=
    expandLabel (server appTrafficSecret) kTrafficKeyUpdate IOBuf_create0
                hashLength in
  let appTrafficSecret := with_server (coalesced buf) appTrafficSecret in
  let appTrafficSecret :=
    with_serverGeneration (uint32_incr (serverGeneration appTrafficSecret))
                          appTrafficSecret in
  set_appTrafficSecret_ (Some appTrafficSecret) ;;
  ret (serverGeneration appTrafficSecret).

(** The label each [switch] picks. *)
Definition EarlySecrets_label (s : EarlySecrets) : string :=
  match s with
  | ExternalPskBinder => kExternalPskBinder
  | ResumptionPskBinder => kResumptionPskBinder
  | ClientEarlyTraffic => kClientEarlyTraffic
  | EarlyExporter => kEarlyExporter
  end.

Definition HandshakeSecrets_label (s : HandshakeSecrets) : string :=
  match s with
  | ClientHandshakeTraffic => kClientHandshakeTraffic
  | ServerHandshakeTraffic => kServerHandshakeTraffic
  end.

Definition MasterSecrets_label (s : MasterSecrets) : string :=
  match s with
  | ExporterMaster => kExporterMaster
  | ResumptionMaster => kResumptionMaster
  end.

(** [std::vector<uint8_t> getSecret(EarlySecrets s, folly::ByteRange transcript) const] *)
Definition getSecret_Early (s : EarlySecrets) (transcript : bytes)
  (this : KeyScheduler) : result bytes :=
  let label := EarlySecrets_label s in
  v <-? deref (secret_ this) ;;
  earlySecret <-? get_EarlySecret v ;;
  Return (deriveSecret earlySecret label transcript).

(** [std::vector<uint8_t> getSecret(HandshakeSecrets s, folly::ByteRange transcript) const] *)
Definition getSecret_Handshake (s : HandshakeSecrets) (transcript : bytes)
  (this : KeyScheduler) : result bytes :=
  let label := HandshakeSecrets_label s in
  v <-? deref (secret_ this) ;;
  handshakeSecret <-? get_HandshakeSecret v ;;
  Return (deriveSecret handshakeSecret label transcript).

(** [std::vector<uint8_t> getSecret(MasterSecrets s, folly::ByteRange transcript) const] *)
Definition getSecret_Master (s : MasterSecrets) (transcript : bytes)
  (this : KeyScheduler) : result bytes :=
  let label := MasterSecrets_label s in
  v <-? deref (secret_ this) ;;
  masterSecret <-? get_MasterSecret v ;;
  Return (deriveSecret masterSecret label transcript).

(** [std::vector<uint8_t> getSecret(AppTrafficSecrets s) const] *)
Definition getSecret_AppTraffic (s : AppTrafficSecrets) (this : KeyScheduler)
  : result bytes :=
  appTrafficSecret <-? deref (appTrafficSecret_ this) ;;
  match s with
  | ClientAppTraffic => Return (client appTrafficSecret)
  | ServerAppTraffic => Return (server appTrafficSecret)
  end.

(** [TrafficKey getTrafficKey(folly::ByteRange trafficSecret, size_t keyLength,
    size_t ivLength) const] *)
Definition getTrafficKey (trafficSecret : bytes) (keyLength ivLength : N)
  (this : KeyScheduler) : TrafficKey :=
  let trafficKey_key :=
    expandLabel trafficSecret kTrafficKey IOBuf_create0 keyLength in
  let trafficKey_iv :=
    expandLabel trafficSecret kTrafficIv IOBuf_create0 ivLength in
  {| key := trafficKey_key; iv := trafficKey_iv |}.

(** [Buf getResumptionSecret(folly::ByteRange resumptionMasterSecret,
    folly::ByteRange ticketNonce) const] *)
Definition getResumptionSecret (resumptionMasterSecret ticketNonce : bytes)
  (this : KeyScheduler) : Buf :=
  expandLabel resumptionMasterSecret kResumption
              (IOBuf_wrapBuffer ticketNonce) hashLength.

(** ** Sequences of calls *)

(** [n] calls of the same method in a row, with the values they return. *)
Fixpoint repeatM {A : Type} (n : nat) (m : M A) : M (list A) :=
  match n with
  | O => ret []
  | S n' => a <- m ;; rest <- repeatM n' m ;; ret (a :: rest)
  end.

(** One step of the key-update ratchet on a traffic secret, as both
    [clientKeyUpdate] and [serverKeyUpdate] compute it. *)
Definition trafficUpdate (trafficSecret : bytes) : bytes :=
  coalesced
    (expandLabel trafficSecret "traffic upd" IOBuf_create0 hashLength).

(** The methods that assign to [secret_]. *)
Inductive ChainOp : Type :=
| DeriveEarlySecret (psk : bytes)
| DeriveHandshakeSecret
| DeriveHandshakeSecretEcdhe (ecdhe : bytes)
| DeriveMasterSecret
| ClearMasterSecret.

Definition run_chain (c : ChainOp) : M unit :=
  match c with
  | DeriveEarlySecret psk => deriveEarlySecret psk
  | DeriveHandshakeSecret => deriveHandshakeSecret
  | DeriveHandshakeSecretEcdhe ecdhe => deriveHandshakeSecret_ecdhe ecdhe
  | DeriveMasterSecret => deriveMasterSecret
  | ClearMasterSecret => clearMasterSecret
  end.

(** Every method that is not [const]. *)
Inductive Op : Type :=
| Chain (c : ChainOp)
| DeriveAppTrafficSecrets (transcript : bytes)
| ClientKeyUpdate
| ServerKeyUpdate.

Definition run_op (o : Op) : M unit :=
  match o with
  | Chain c => run_chain c
  | DeriveAppTrafficSecrets transcript => deriveAppTrafficSecrets transcript
  | ClientKeyUpdate => _ <- clientKeyUpdate ;; ret tt
  | ServerKeyUpdate => _ <- serverKeyUpdate ;; ret tt
  end.

Fixpoint run_ops (os : list Op) : M unit :=
  match os with
  | [] => ret tt
  | o :: os' => run_op o ;; run_ops os'
  end.

End Scheduler.

(** Running a command for the scheduler it leaves and for its outcome. *)
Definition exec {A : Type} (m : M A) (ks : KeyScheduler) : KeyScheduler :=
  snd (m ks).

Definition outcome {A : Type} (m : M A) (ks : KeyScheduler) : result A :=
  fst (m ks).

Definition throws {A : Type} (r : result A) : bool :=
  match r with
  | Throw _ => true
  | Return _ => false
  end.

(** ** Observations on a scheduler *)

(** Which alternative [secret_] holds, if any. *)
Inductive Phase : Type := Empty | Early | Handshake | Master.

Definition phase (ks : KeyScheduler) : Phase :=
  match secret_ ks with
  | None => Empty
  | Some (EarlySecret _) => Early
  | Some (HandshakeSecret _) => Handshake
  | Some (MasterSecret _) => Master
  end.

(** The transitions of the chain: the phase a method needs and the phase it
    leaves; [None] where the method throws. *)
Definition chain_next (c : ChainOp) (p : Phase) : option Phase :=
  match c, p with
  | DeriveEarlySecret _, Empty => Some Early
  | DeriveHandshakeSecret, Early => Some Handshake
  | DeriveHandshakeSecretEcdhe _, Empty => Some Handshake
  | DeriveHandshakeSecretEcdhe _, Early => Some Handshake
  | DeriveMasterSecret, Handshake => Some Master
  | ClearMasterSecret, Master => Some Empty
  | _, _ => None
  end.

(** The two generation counters, once the traffic secrets exist. *)
Definition generations (ks : KeyScheduler) : option (Z * Z) :=
  option_map (fun a => (clientGeneration a, serverGeneration a))
             (appTrafficSecret_ ks).

(** Whether a call stores the traffic secrets. *)
Definition derives_traffic (o : Op) : bool :=
  match o with
  | DeriveAppTrafficSecrets _ => true
  | _ => false
  end.

(** The residue of a count in a [uint32_t]. *)
Definition uint32_of_nat (i : nat) : Z := Z.of_nat i mod uint32_modulus.

(** ** A derivation double for concrete runs *)

(** An implementation of [KeyDerivation] that only records what it was asked
    for.  It gives the general theorems below a concrete instance to run
    on. *)
Definition label_bytes (label : string) : bytes := list_byte_of_string label.

Definition RecordingKeyDerivation : KeyDerivation :=
  {| hashLength := 2%N;
     hkdfExtract := fun salt ikm => Byte.x01 :: salt ++ Byte.xff :: ikm;
     deriveSecret := fun secret label context =>
       Byte.x02 :: secret ++ Byte.xff :: label_bytes label ++ Byte.xff :: context;
     expandLabel := fun secret label context length =>
       Byte.x03 :: secret ++ Byte.xff :: label_bytes label ++ Byte.xff :: context;
     blankHash := [Byte.x04] |}.

(** A scheduler that holds a master secret and no traffic secrets yet. *)
Definition at_master (masterSecret : bytes) : KeyScheduler :=
  {| secret_ := Some (MasterSecret masterSecret); appTrafficSecret_ := None |}.

(** ** Sequences of key updates *)

Definition is_client_update (o : Op) : bool :=
  match o with
  | ClientKeyUpdate => true
  | _ => false
  end.

Definition is_server_update (o : Op) : bool :=
  match o with
  | ServerKeyUpdate => true
  | _ => false
  end.

Definition is_key_update (o : Op) : bool :=
  is_client_update o || is_server_update o.

(** How many calls of a sequence are key updates of one side. *)
Definition count_client (os : list Op) : nat :=
  List.length (filter is_client_update os).

Definition count_server (os : list Op) : nat :=
  List.length (filter is_server_update os).

(** Both counters of the traffic slot, when it is filled, are values of a
    [uint32_t]. *)
Definition generations_in_range (ks : KeyScheduler) : Prop :=
  match appTrafficSecret_ ks with
  | None => True
  | Some a =>
      0 <= clientGeneration a < uint32_modulus
      /\ 0 <= serverGeneration a < uint32_modulus
  end.

(** ** The labels in use *)



(** * Properties *)

(** ** Helpers *)

Lemma zero_vector_length (n : N) : List.length (zero_vector n) = N.to_nat n.
Proof. unfold zero_vector. apply repeat_length. Qed.

Lemma zero_vector_zero (n : N) (b : Byte.byte) :
  In b (zero_vector n) -> b = Byte.x00.
Proof. unfold zero_vector. intros H. apply repeat_spec in H. exact H. Qed.

Lemma bind_Return {A B : Type} (m : M A) (k : A -> M B) ks a ks' :
  m ks = (Return a, ks') -> bind m k ks = k a ks'.
Proof. unfold bind. intros ->. reflexivity. Qed.


Lemma uint32_incr_of_nat (k : nat) :
  uint32_incr (uint32_of_nat k) = uint32_of_nat (S k).
Proof.
  unfold uint32_incr, uint32_of_nat.
  rewrite Zplus_mod_idemp_l. f_equal. lia.
Qed.

Lemma uint32_incr_small (g : Z) :
  0 <= g < uint32_modulus - 1 -> uint32_incr g = g + 1.
Proof.
  intros Hg. unfold uint32_incr. apply Z.mod_small. lia.
Qed.

Lemma uint32_incr_max : uint32_incr (uint32_modulus - 1) = 0.
Proof. reflexivity. Qed.

Lemma uint32_of_nat_small (i : nat) :
  Z.of_nat i < uint32_modulus -> uint32_of_nat i = Z.of_nat i.
Proof.
  intros Hi. unfold uint32_of_nat. apply Z.mod_small. lia.
Qed.

Lemma map_uint32_of_nat_seq (k n : nat) :
  Z.of_nat (k + n) <= uint32_modulus ->
  map uint32_of_nat (seq k n) = map Z.of_nat (seq k n).
Proof.
  intros Hn. apply map_ext_in. intros i Hi.
  apply in_seq in Hi. apply uint32_of_nat_small. lia.
Qed.

(** ** The secret chain *)

Section Chain.

Context {deriver_ : KeyDerivation}.

(** C1.  The chain computes the RFC 8446 ladder over the derivation
    primitive: on an empty slot [deriveEarlySecret psk] stores
    [hkdfExtract zeros psk] as the early secret; on an early secret
    [deriveHandshakeSecret ecdhe] stores
    [hkdfExtract (deriveSecret early "derived" blankHash) ecdhe] as the
    handshake secret; on a handshake secret [deriveMasterSecret] stores
    [hkdfExtract (deriveSecret handshake "derived" blankHash) zeros] as the
    master secret; [zeros] is [hashLength] bytes of zero.  The traffic slot
    is not touched, and the three calls in a row on a fresh scheduler give
    the composed value. *)
Theorem secret_chain_ladder :
  forall (psk ecdhe : bytes) (app : option AppTrafficSecret),
    let zeros := repeat Byte.x00 (N.to_nat hashLength) in
    deriveEarlySecret psk {| secret_ := None; appTrafficSecret_ := app |}
    = (Return tt,
       {| secret_ := Some (EarlySecret (hkdfExtract zeros psk));
          appTrafficSecret_ := app |})
    /\ (forall early : bytes,
         deriveHandshakeSecret_ecdhe ecdhe
           {| secret_ := Some (EarlySecret early); appTrafficSecret_ := app |}
         = (Return tt,
            {| secret_ :=
                 Some (HandshakeSecret
                         (hkdfExtract (deriveSecret early "derived" blankHash)
                                      ecdhe));
               appTrafficSecret_ := app |}))
    /\ (forall handshake : bytes,
         deriveMasterSecret
           {| secret_ := Some (HandshakeSecret handshake);
              appTrafficSecret_ := app |}
         = (Return tt,
            {| secret_ :=
                 Some (MasterSecret
                         (hkdfExtract
                            (deriveSecret handshake "derived" blankHash)
                            zeros));
               appTrafficSecret_ := app |}))
    /\ (deriveEarlySecret psk ;; deriveHandshakeSecret_ecdhe ecdhe ;;
        deriveMasterSecret) fresh
       = (Return tt,
          {| secret_ :=
               Some (MasterSecret
                       (hkdfExtract
                          (deriveSecret
                             (hkdfExtract
                                (deriveSecret (hkdfExtract zeros psk)
                                              "derived" blankHash)
                                ecdhe)
                             "derived" blankHash)
                          zeros));
             appTrafficSecret_ := None |}).
Proof.
  intros psk ecdhe app zeros.
  split; [reflexivity|].
  split; [intros early; reflexivity|].
  split; [intros handshake; reflexivity|].
  reflexivity.
Qed.

(** C7.  [deriveEarlySecret] on a scheduler whose chain slot holds any
    secret throws [std::runtime_error("secret already set")] and leaves the
    scheduler as it was; so a second call right after a first one throws and
    the early secret of the first call stays. *)
Theorem deriveEarlySecret_already_set :
  forall (psk : bytes) (held : Secret) (app : option AppTrafficSecret),
    let ks := {| secret_ := Some held; appTrafficSecret_ := app |} in
    deriveEarlySecret psk ks = (Throw (runtime_error "secret already set"), ks)
    /\ (forall first : bytes,
         (deriveEarlySecret first ;; deriveEarlySecret psk)
           {| secret_ := None; appTrafficSecret_ := app |}
         = (Throw (runtime_error "secret already set"),
            {| secret_ :=
                 Some (EarlySecret
                         (hkdfExtract (zero_vector hashLength) first));
               appTrafficSecret_ := app |})).
Proof.
  intros psk held app ks. split.
  - reflexivity.
  - intros first. reflexivity.
Qed.

(** C3.  The overload without argument needs an early secret: on one it
    stores [hkdfExtract (deriveSecret early "derived" blankHash) zeros] as the
    handshake secret; on an empty slot it throws (the dereference of the
    empty optional) and on a handshake or master secret it throws
    ([boost::get]), the scheduler staying as it was.  The overload that takes
    [ecdhe] is the one that starts from an empty slot: it first stores
    [hkdfExtract zeros zeros] as the early secret and goes on from there, so
    it succeeds as the first call on a fresh scheduler. *)
Theorem deriveHandshakeSecret_needs_early :
  forall (app : option AppTrafficSecret),
    let zeros := repeat Byte.x00 (N.to_nat hashLength) in
    let at_ := fun s => {| secret_ := s; appTrafficSecret_ := app |} in
    (forall early : bytes,
       deriveHandshakeSecret (at_ (Some (EarlySecret early)))
       = (Return tt,
          at_ (Some (HandshakeSecret
                       (hkdfExtract (deriveSecret early "derived" blankHash)
                                    zeros)))))
    /\ deriveHandshakeSecret (at_ None)
       = (Throw OptionalEmptyException, at_ None)
    /\ (forall s : bytes,
         deriveHandshakeSecret (at_ (Some (HandshakeSecret s)))
         = (Throw bad_get, at_ (Some (HandshakeSecret s))))
    /\ (forall s : bytes,
         deriveHandshakeSecret (at_ (Some (MasterSecret s)))
         = (Throw bad_get, at_ (Some (MasterSecret s))))
    /\ (forall ecdhe : bytes,
         deriveHandshakeSecret_ecdhe ecdhe (at_ None)
         = (Return tt,
            at_ (Some (HandshakeSecret
                         (hkdfExtract
                            (deriveSecret (hkdfExtract zeros zeros)
                                          "derived" blankHash)
                            ecdhe))))).
Proof.
  intros app zeros at_.
  repeat split; intros; reflexivity.
Qed.

(** What a chain method does only depends on the alternative it finds. *)
Lemma run_chain_step (c : ChainOp) (ks : KeyScheduler) :
  match chain_next c (phase ks) with
  | Some q =>
      outcome (run_chain c) ks = Return tt
      /\ phase (exec (run_chain c) ks) = q
  | None =>
      throws (outcome (run_chain c) ks) = true
      /\ exec (run_chain c) ks = ks
  end.
Proof.
  destruct ks as [[[s|s|s]|] app]; destruct c; cbn; split; reflexivity.
Qed.

(** No chain method touches the traffic slot. *)
Lemma run_chain_appTrafficSecret_ (c : ChainOp) (ks : KeyScheduler) :
  appTrafficSecret_ (exec (run_chain c) ks) = appTrafficSecret_ ks.
Proof.
  destruct ks as [[[s|s|s]|] app]; destruct c; reflexivity.
Qed.

(** C2.  The chain slot moves only along empty -> early -> handshake ->
    master -> empty: [deriveEarlySecret] needs the empty slot,
    [deriveHandshakeSecret()] an early secret, [deriveHandshakeSecret(ecdhe)]
    an early secret or the empty slot, [deriveMasterSecret] a handshake
    secret and [clearMasterSecret] a master secret; a call in any other phase
    throws and changes nothing.  [clearMasterSecret] leaves the slot empty,
    and that is the very state of a fresh scheduler's slot: on it the
    retrievals, [deriveHandshakeSecret()], [deriveMasterSecret],
    [deriveAppTrafficSecrets] and [clearMasterSecret] throw, while
    [deriveEarlySecret] and [deriveHandshakeSecret(ecdhe)] succeed and start
    the chain again. *)
Theorem chain_transitions :
  (forall (c : ChainOp) (ks : KeyScheduler),
     match chain_next c (phase ks) with
     | Some q =>
         outcome (run_chain c) ks = Return tt
         /\ phase (exec (run_chain c) ks) = q
     | None =>
         throws (outcome (run_chain c) ks) = true
         /\ exec (run_chain c) ks = ks
     end)
  /\ (forall (master : bytes) (app : option AppTrafficSecret),
        let cleared := {| secret_ := None; appTrafficSecret_ := app |} in
        clearMasterSecret
          {| secret_ := Some (MasterSecret master); appTrafficSecret_ := app |}
        = (Return tt, cleared)
        /\ (forall s t, getSecret_Early s t cleared = Throw OptionalEmptyException)
        /\ (forall s t, getSecret_Handshake s t cleared = Throw OptionalEmptyException)
        /\ (forall s t, getSecret_Master s t cleared = Throw OptionalEmptyException)
        /\ deriveHandshakeSecret cleared = (Throw OptionalEmptyException, cleared)
        /\ deriveMasterSecret cleared = (Throw OptionalEmptyException, cleared)
        /\ (forall t, deriveAppTrafficSecrets t cleared
                      = (Throw OptionalEmptyException, cleared))
        /\ clearMasterSecret cleared = (Throw OptionalEmptyException, cleared)
        /\ (forall psk, outcome (deriveEarlySecret psk) cleared = Return tt
                        /\ phase (exec (deriveEarlySecret psk) cleared) = Early)
        /\ (forall ecdhe,
              outcome (deriveHandshakeSecret_ecdhe ecdhe) cleared = Return tt
              /\ phase (exec (deriveHandshakeSecret_ecdhe ecdhe) cleared)
                 = Handshake)).
Proof.
  split.
  - exact run_chain_step.
  - intros master app cleared.
    repeat split; intros; reflexivity.
Qed.

End Chain.

(** C2, as stated, fails: after [clearMasterSecret] the slot is empty again,
    and [deriveEarlySecret] on the same scheduler succeeds and stores a new
    early secret. *)
Lemma cleared_is_not_terminal :
  let D := RecordingKeyDerivation in
  let cleared :=
    exec (@deriveEarlySecret D [Byte.x61] ;; @deriveHandshakeSecret D ;;
          @deriveMasterSecret D ;; clearMasterSecret) fresh in
  cleared = fresh
  /\ @deriveEarlySecret D [Byte.x62] cleared
     = (Return tt,
        {| secret_ :=
             Some (EarlySecret
                     [Byte.x01; Byte.x00; Byte.x00; Byte.xff; Byte.x62]);
           appTrafficSecret_ := None |}).
Proof. split; reflexivity. Qed.

(** C3, as stated, fails: [deriveHandshakeSecret()] as the first call on a
    fresh scheduler throws and stores nothing. *)
Lemma deriveHandshakeSecret_fresh_throws :
  @deriveHandshakeSecret RecordingKeyDerivation fresh
  = (Throw OptionalEmptyException, fresh).
Proof. reflexivity. Qed.

(** ** Retrieval by phase *)

Section Retrieval.

Context {deriver_ : KeyDerivation}.

(** C6.  Each phase-scoped [getSecret] returns
    [deriveSecret secret label transcript] on the secret of its own phase,
    with the label of the selector, and throws in every other state of the
    chain slot: [boost::get] refuses another alternative and the dereference
    refuses the empty slot.  No bytes are returned in those states. *)
Theorem getSecret_phase_checked :
  forall (transcript : bytes) (ks : KeyScheduler),
    (forall s : EarlySecrets,
       getSecret_Early s transcript ks
       = match secret_ ks with
         | Some (EarlySecret early) =>
             Return (deriveSecret early (EarlySecrets_label s) transcript)
         | Some _ => Throw bad_get
         | None => Throw OptionalEmptyException
         end)
    /\ (forall s : HandshakeSecrets,
          getSecret_Handshake s transcript ks
          = match secret_ ks with
            | Some (HandshakeSecret handshake) =>
                Return (deriveSecret handshake (HandshakeSecrets_label s)
                                     transcript)
            | Some _ => Throw bad_get
            | None => Throw OptionalEmptyException
            end)
    /\ (forall s : MasterSecrets,
          getSecret_Master s transcript ks
          = match secret_ ks with
            | Some (MasterSecret master) =>
                Return (deriveSecret master (MasterSecrets_label s) transcript)
            | Some _ => Throw bad_get
            | None => Throw OptionalEmptyException
            end)
    /\ map EarlySecrets_label
           [ExternalPskBinder; ResumptionPskBinder; ClientEarlyTraffic;
            EarlyExporter]
       = ["ext binder"; "res binder"; "c e traffic"; "e exp master"]
    /\ map HandshakeSecrets_label
           [ClientHandshakeTraffic; ServerHandshakeTraffic]
       = ["c hs traffic"; "s hs traffic"]
    /\ map MasterSecrets_label [ExporterMaster; ResumptionMaster]
       = ["exp master"; "res master"].
Proof.
  intros transcript [[[x|x|x]|] app]; repeat split; intros s; reflexivity.
Qed.

End Retrieval.

(** ** Traffic keys and the resumption secret *)

Section Materialization.

Context {deriver_ : KeyDerivation}.

(** C9.  [getTrafficKey] and [getResumptionSecret] depend on no member of
    the scheduler: on any two schedulers they give the same value for the
    same arguments, namely the key [expandLabel secret "key" empty keyLength]
    with the iv [expandLabel secret "iv" empty ivLength], and
    [expandLabel secret "resumption" ticketNonce hashLength]; being [const]
    they leave no scheduler behind to differ. *)
Theorem materialization_pure :
  forall (trafficSecret resumptionMasterSecret ticketNonce : bytes)
         (keyLength ivLength : N) (ks ks' : KeyScheduler),
    getTrafficKey trafficSecret keyLength ivLength ks
    = {| key := expandLabel trafficSecret "key" [] keyLength;
         iv := expandLabel trafficSecret "iv" [] ivLength |}
    /\ getResumptionSecret resumptionMasterSecret ticketNonce ks
       = expandLabel resumptionMasterSecret "resumption" ticketNonce hashLength
    /\ getTrafficKey trafficSecret keyLength ivLength ks
       = getTrafficKey trafficSecret keyLength ivLength ks'
    /\ getResumptionSecret resumptionMasterSecret ticketNonce ks
       = getResumptionSecret resumptionMasterSecret ticketNonce ks'.
Proof.
  intros. repeat split; reflexivity.
Qed.

End Materialization.

(** ** Application traffic secrets and key updates *)

Section KeyUpdates.

Context {deriver_ : KeyDerivation}.

Lemma clientKeyUpdate_Some (sec : option Secret) (a : AppTrafficSecret) :
  clientKeyUpdate {| secret_ := sec; appTrafficSecret_ := Some a |}
  = (Return (uint32_incr (clientGeneration a)),
     {| secret_ := sec;
        appTrafficSecret_ :=
          Some {| client := trafficUpdate (client a);
                  clientGeneration := uint32_incr (clientGeneration a);
                  server := server a;
                  serverGeneration := serverGeneration a |} |}).
Proof. reflexivity. Qed.

Lemma serverKeyUpdate_Some (sec : option Secret) (a : AppTrafficSecret) :
  serverKeyUpdate {| secret_ := sec; appTrafficSecret_ := Some a |}
  = (Return (uint32_incr (serverGeneration a)),
     {| secret_ := sec;
        appTrafficSecret_ :=
          Some {| client := client a;
                  clientGeneration := clientGeneration a;
                  server := trafficUpdate (server a);
                  serverGeneration := uint32_incr (serverGeneration a) |} |}).
Proof. reflexivity. Qed.

Lemma deriveAppTrafficSecrets_Master
  (transcript master : bytes) (app : option AppTrafficSecret) :
  deriveAppTrafficSecrets transcript
    {| secret_ := Some (MasterSecret master); appTrafficSecret_ := app |}
  = (Return tt,
     {| secret_ := Some (MasterSecret master);
        appTrafficSecret_ :=
          Some {| client := deriveSecret master "c ap traffic" transcript;
                  clientGeneration := 0;
                  server := deriveSecret master "s ap traffic" transcript;
                  serverGeneration := 0 |} |}).
Proof. reflexivity. Qed.

(** [n] client updates in a row, from a counter that stands at the residue
    of [k]. *)
Lemma repeatM_clientKeyUpdate (n : nat) :
  forall (k : nat) (sec : option Secret) (c s : bytes) (sg : Z),
    repeatM n clientKeyUpdate
      {| secret_ := sec;
         appTrafficSecret_ :=
           Some {| client := c; clientGeneration := uint32_of_nat k;
                   server := s; serverGeneration := sg |} |}
    = (Return (map uint32_of_nat (seq (S k) n)),
       {| secret_ := sec;
          appTrafficSecret_ :=
            Some {| client := Nat.iter n trafficUpdate c;
                    clientGeneration := uint32_of_nat (k + n);
                    server := s; serverGeneration := sg |} |}).
Proof.
  induction n as [|n IH]; intros k sec c s sg.
  - cbn [repeatM seq map Nat.iter nat_rect]. rewrite Nat.add_0_r. reflexivity.
  - cbn [repeatM].
    rewrite (bind_Return _ _ _ _ _ (clientKeyUpdate_Some _ _)).
    cbn [client clientGeneration server serverGeneration].
    rewrite uint32_incr_of_nat.
    rewrite (bind_Return _ _ _ _ _ (IH (S k) _ _ _ _)).
    unfold ret. rewrite <- Nat.iter_succ_r.
    replace (S k + n)%nat with (k + S n)%nat by lia.
    reflexivity.
Qed.

Lemma repeatM_serverKeyUpdate (n : nat) :
  forall (k : nat) (sec : option Secret) (c s : bytes) (cg : Z),
    repeatM n serverKeyUpdate
      {| secret_ := sec;
         appTrafficSecret_ :=
           Some {| client := c; clientGeneration := cg;
                   server := s; serverGeneration := uint32_of_nat k |} |}
    = (Return (map uint32_of_nat (seq (S k) n)),
       {| secret_ := sec;
          appTrafficSecret_ :=
            Some {| client := c; clientGeneration := cg;
                    server := Nat.iter n trafficUpdate s;
                    serverGeneration := uint32_of_nat (k + n) |} |}).
Proof.
  induction n as [|n IH]; intros k sec c s cg.
  - cbn [repeatM seq map Nat.iter nat_rect]. rewrite Nat.add_0_r. reflexivity.
  - cbn [repeatM].
    rewrite (bind_Return _ _ _ _ _ (serverKeyUpdate_Some _ _)).
    cbn [client clientGeneration server serverGeneration].
    rewrite uint32_incr_of_nat.
    rewrite (bind_Return _ _ _ _ _ (IH (S k) _ _ _ _)).
    unfold ret. rewrite <- Nat.iter_succ_r.
    replace (S k + n)%nat with (k + S n)%nat by lia.
    reflexivity.
Qed.

(** C4.  Once [deriveAppTrafficSecrets] has stored the traffic secrets, [n]
    calls of [clientKeyUpdate] return the residues of 1, 2, ..., n modulo
    2^32 (the counter is a [uint32_t]), which are 1, 2, ..., n themselves
    as long as [n < 2^32]; the stored client secret is then the [n]-fold
    [expandLabel _ "traffic upd" empty hashLength] of the derived one, each
    single call replacing the stored secret by its expansion.  The same
    holds for [serverKeyUpdate] and the server secret. *)
Theorem keyUpdate_generations :
  forall (n : nat) (master transcript : bytes) (app : option AppTrafficSecret),
    let ks :=
      {| secret_ := Some (MasterSecret master); appTrafficSecret_ := app |} in
    let c0 := deriveSecret master "c ap traffic" transcript in
    let s0 := deriveSecret master "s ap traffic" transcript in
    let upd := fun secret : bytes =>
      expandLabel secret "traffic upd" [] hashLength in
    (deriveAppTrafficSecrets transcript ;; repeatM n clientKeyUpdate) ks
    = (Return (map (fun i : nat => Z.of_nat i mod 2 ^ 32) (seq 1 n)),
       {| secret_ := Some (MasterSecret master);
          appTrafficSecret_ :=
            Some {| client := Nat.iter n upd c0;
                    clientGeneration := Z.of_nat n mod 2 ^ 32;
                    server := s0; serverGeneration := 0 |} |})
    /\ (deriveAppTrafficSecrets transcript ;; repeatM n serverKeyUpdate) ks
       = (Return (map (fun i : nat => Z.of_nat i mod 2 ^ 32) (seq 1 n)),
          {| secret_ := Some (MasterSecret master);
             appTrafficSecret_ :=
               Some {| client := c0; clientGeneration := 0;
                       server := Nat.iter n upd s0;
                       serverGeneration := Z.of_nat n mod 2 ^ 32 |} |})
    /\ (Z.of_nat n < 2 ^ 32 ->
        outcome (deriveAppTrafficSecrets transcript ;;
                 repeatM n clientKeyUpdate) ks
        = Return (map Z.of_nat (seq 1 n))
        /\ outcome (deriveAppTrafficSecrets transcript ;;
                    repeatM n serverKeyUpdate) ks
           = Return (map Z.of_nat (seq 1 n)))
    /\ (forall (sec : option Secret) (a : AppTrafficSecret),
          option_map client
            (appTrafficSecret_
               (exec clientKeyUpdate
                     {| secret_ := sec; appTrafficSecret_ := Some a |}))
          = Some (upd (client a))
          /\ option_map server
               (appTrafficSecret_
                  (exec serverKeyUpdate
                        {| secret_ := sec; appTrafficSecret_ := Some a |}))
             = Some (upd (server a))).
Proof.
  intros n master transcript app ks c0 s0 upd.
  assert (Hc : (deriveAppTrafficSecrets transcript ;; repeatM n clientKeyUpdate) ks
               = (Return (map uint32_of_nat (seq 1 n)),
                  {| secret_ := Some (MasterSecret master);
                     appTrafficSecret_ :=
                       Some {| client := Nat.iter n trafficUpdate c0;
                               clientGeneration := uint32_of_nat n;
                               server := s0; serverGeneration := 0 |} |})).
  { unfold ks.
    rewrite (bind_Return _ _ _ _ _ (deriveAppTrafficSecrets_Master _ _ _)).
    exact (repeatM_clientKeyUpdate n 0 _ _ _ _). }
  assert (Hs : (deriveAppTrafficSecrets transcript ;; repeatM n serverKeyUpdate) ks
               = (Return (map uint32_of_nat (seq 1 n)),
                  {| secret_ := Some (MasterSecret master);
                     appTrafficSecret_ :=
                       Some {| client := c0; clientGeneration := 0;
                               server := Nat.iter n trafficUpdate s0;
                               serverGeneration := uint32_of_nat n |} |})).
  { unfold ks.
    rewrite (bind_Return _ _ _ _ _ (deriveAppTrafficSecrets_Master _ _ _)).
    exact (repeatM_serverKeyUpdate n 0 _ _ _ _). }
  split; [exact Hc|]. split; [exact Hs|]. split.
  - intros Hn. unfold outcome. rewrite Hc, Hs. cbn [fst].
    rewrite map_uint32_of_nat_seq by (unfold uint32_modulus; lia).
    split; reflexivity.
  - intros sec a. split; reflexivity.
Qed.

(** C8.  A key update touches its own half of the traffic secrets only:
    [serverKeyUpdate] leaves the client secret and the client counter as they
    are and [clientKeyUpdate] leaves the server secret and the server
    counter; neither touches the chain slot.  Right after
    [deriveAppTrafficSecrets], one [serverKeyUpdate] returns 1 and leaves the
    client counter at 0 and the server counter at 1. *)
Theorem keyUpdate_frame :
  forall (sec : option Secret) (a : AppTrafficSecret),
    let ks := {| secret_ := sec; appTrafficSecret_ := Some a |} in
    serverKeyUpdate ks
    = (Return (uint32_incr (serverGeneration a)),
       {| secret_ := sec;
          appTrafficSecret_ :=
            Some {| client := client a;
                    clientGeneration := clientGeneration a;
                    server :=
                      expandLabel (server a) "traffic upd" [] hashLength;
                    serverGeneration := uint32_incr (serverGeneration a) |} |})
    /\ clientKeyUpdate ks
       = (Return (uint32_incr (clientGeneration a)),
          {| secret_ := sec;
             appTrafficSecret_ :=
               Some {| client :=
                         expandLabel (client a) "traffic upd" [] hashLength;
                       clientGeneration := uint32_incr (clientGeneration a);
                       server := server a;
                       serverGeneration := serverGeneration a |} |})
    /\ (forall (master transcript : bytes) (app : option AppTrafficSecret),
          (deriveAppTrafficSecrets transcript ;; serverKeyUpdate)
            {| secret_ := Some (MasterSecret master);
               appTrafficSecret_ := app |}
          = (Return 1,
             {| secret_ := Some (MasterSecret master);
                appTrafficSecret_ :=
                  Some {| client :=
                            deriveSecret master "c ap traffic" transcript;
                          clientGeneration := 0;
                          server :=
                            expandLabel
                              (deriveSecret master "s ap traffic" transcript)
                              "traffic upd" [] hashLength;
                          serverGeneration := 1 |} |})).
Proof.
  intros sec a ks. repeat split; intros; reflexivity.
Qed.

(** A command that neither reads nor writes the chain slot: what it returns
    and what it leaves in the traffic slot do not depend on [secret_], and
    [secret_] is left as found. *)
Lemma repeatM_ignores_secret_ {A : Type} (m : M A) :
  (forall sec sec' app,
     let ks := {| secret_ := sec; appTrafficSecret_ := app |} in
     let ks' := {| secret_ := sec'; appTrafficSecret_ := app |} in
     outcome m ks = outcome m ks'
     /\ appTrafficSecret_ (exec m ks) = appTrafficSecret_ (exec m ks')
     /\ secret_ (exec m ks) = sec) ->
  forall (n : nat) sec sec' app,
    let ks := {| secret_ := sec; appTrafficSecret_ := app |} in
    let ks' := {| secret_ := sec'; appTrafficSecret_ := app |} in
    outcome (repeatM n m) ks = outcome (repeatM n m) ks'
    /\ appTrafficSecret_ (exec (repeatM n m) ks)
       = appTrafficSecret_ (exec (repeatM n m) ks')
    /\ secret_ (exec (repeatM n m) ks) = sec.
Proof.
  intros Hm. unfold outcome, exec in *. cbn zeta in *.
  induction n as [|n IH]; intros sec sec' app.
  - cbn. auto.
  - cbn [repeatM]. unfold bind.
    destruct (Hm sec sec' app) as (Ho & Ha & Hs).
    destruct (Hm sec' sec app) as (_ & _ & Hs').
    destruct (m {| secret_ := sec; appTrafficSecret_ := app |})
      as [r1 [s1 a1]].
    destruct (m {| secret_ := sec'; appTrafficSecret_ := app |})
      as [r2 [s2 a2]].
    cbn in Ho, Ha, Hs, Hs'. subst r2 a2 s1 s2.
    destruct r1 as [e|x]; [cbn; auto|].
    destruct (IH sec sec' a1) as (Ho' & Ha' & Hs'').
    destruct (repeatM n m {| secret_ := sec; appTrafficSecret_ := a1 |})
      as [r3 [s3 a3]].
    destruct (repeatM n m {| secret_ := sec'; appTrafficSecret_ := a1 |})
      as [r4 [s4 a4]].
    cbn in Ho', Ha', Hs''. subst r4 a4 s3.
    destruct r3; cbn; auto.
Qed.

Lemma clientKeyUpdate_ignores_secret_ sec sec' app :
  let ks := {| secret_ := sec; appTrafficSecret_ := app |} in
  let ks' := {| secret_ := sec'; appTrafficSecret_ := app |} in
  outcome clientKeyUpdate ks = outcome clientKeyUpdate ks'
  /\ appTrafficSecret_ (exec clientKeyUpdate ks)
     = appTrafficSecret_ (exec clientKeyUpdate ks')
  /\ secret_ (exec clientKeyUpdate ks) = sec.
Proof. destruct app; repeat split; reflexivity. Qed.

Lemma serverKeyUpdate_ignores_secret_ sec sec' app :
  let ks := {| secret_ := sec; appTrafficSecret_ := app |} in
  let ks' := {| secret_ := sec'; appTrafficSecret_ := app |} in
  outcome serverKeyUpdate ks = outcome serverKeyUpdate ks'
  /\ appTrafficSecret_ (exec serverKeyUpdate ks)
     = appTrafficSecret_ (exec serverKeyUpdate ks')
  /\ secret_ (exec serverKeyUpdate ks) = sec.
Proof. destruct app; repeat split; reflexivity. Qed.

(** C10.  [clearMasterSecret] never assigns to the traffic slot.  On a
    scheduler that holds a master secret and traffic secrets it leaves those
    traffic secrets and both counters in place, and afterwards
    [getSecret(AppTrafficSecrets)] returns what it returned before, a key
    update of either side succeeds with the next generation, and any number
    of key updates returns the same values and leaves the same traffic
    secrets as it would have without the clearing. *)
Theorem clearMasterSecret_frame :
  (forall ks : KeyScheduler,
     appTrafficSecret_ (exec clearMasterSecret ks) = appTrafficSecret_ ks)
  /\ (forall (master : bytes) (a : AppTrafficSecret),
        let ks :=
          {| secret_ := Some (MasterSecret master);
             appTrafficSecret_ := Some a |} in
        let cleared := {| secret_ := None; appTrafficSecret_ := Some a |} in
        clearMasterSecret ks = (Return tt, cleared)
        /\ getSecret_AppTraffic ClientAppTraffic cleared = Return (client a)
        /\ getSecret_AppTraffic ServerAppTraffic cleared = Return (server a)
        /\ (forall s, getSecret_AppTraffic s cleared = getSecret_AppTraffic s ks)
        /\ clientKeyUpdate cleared
           = (Return (uint32_incr (clientGeneration a)),
              {| secret_ := None;
                 appTrafficSecret_ :=
                   Some {| client :=
                             expandLabel (client a) "traffic upd" []
                                         hashLength;
                           clientGeneration :=
                             uint32_incr (clientGeneration a);
                           server := server a;
                           serverGeneration := serverGeneration a |} |})
        /\ serverKeyUpdate cleared
           = (Return (uint32_incr (serverGeneration a)),
              {| secret_ := None;
                 appTrafficSecret_ :=
                   Some {| client := client a;
                           clientGeneration := clientGeneration a;
                           server :=
                             expandLabel (server a) "traffic upd" []
                                         hashLength;
                           serverGeneration :=
                             uint32_incr (serverGeneration a) |} |})
        /\ (forall n : nat,
              outcome (clearMasterSecret ;; repeatM n clientKeyUpdate) ks
              = outcome (repeatM n clientKeyUpdate) ks
              /\ appTrafficSecret_
                   (exec (clearMasterSecret ;; repeatM n clientKeyUpdate) ks)
                 = appTrafficSecret_ (exec (repeatM n clientKeyUpdate) ks)
              /\ outcome (clearMasterSecret ;; repeatM n serverKeyUpdate) ks
                 = outcome (repeatM n serverKeyUpdate) ks
              /\ appTrafficSecret_
                   (exec (clearMasterSecret ;; repeatM n serverKeyUpdate) ks)
                 = appTrafficSecret_ (exec (repeatM n serverKeyUpdate) ks))).
Proof.
  split.
  - intros [[[s|s|s]|] app]; reflexivity.
  - intros master a ks cleared.
    split; [reflexivity|]. split; [reflexivity|]. split; [reflexivity|].
    split; [intros []; reflexivity|].
    split; [reflexivity|]. split; [reflexivity|].
    intros n.
    assert (Hclear : clearMasterSecret ks = (Return tt, cleared))
      by reflexivity.
    unfold outcome, exec.
    rewrite !(bind_Return _ _ _ _ _ Hclear).
    destruct (repeatM_ignores_secret_ clientKeyUpdate
                clientKeyUpdate_ignores_secret_ n None
                (Some (MasterSecret master)) (Some a)) as (Hc1 & Hc2 & _).
    destruct (repeatM_ignores_secret_ serverKeyUpdate
                serverKeyUpdate_ignores_secret_ n None
                (Some (MasterSecret master)) (Some a)) as (Hs1 & Hs2 & _).
    unfold outcome, exec in Hc1, Hc2, Hs1, Hs2.
    repeat split; assumption.
Qed.

(** A call that throws has assigned nothing. *)
Lemma run_op_throws_unchanged (o : Op) (ks : KeyScheduler) :
  throws (outcome (run_op o) ks) = true -> exec (run_op o) ks = ks.
Proof.
  destruct ks as [[[s|s|s]|] [a|]]; destruct o as [[]| | |];
    cbn; intros H; try discriminate H; reflexivity.
Qed.

(** One call other than [deriveAppTrafficSecrets]: the counters stay, or
    exactly one of them takes one step. *)
Lemma run_op_generations_step (o : Op) (ks : KeyScheduler) (a : AppTrafficSecret) :
  appTrafficSecret_ ks = Some a ->
  derives_traffic o = false ->
  exists a1 : AppTrafficSecret,
    appTrafficSecret_ (exec (run_op o) ks) = Some a1
    /\ ((clientGeneration a1 = clientGeneration a
         /\ serverGeneration a1 = serverGeneration a)
        \/ (clientGeneration a1 = uint32_incr (clientGeneration a)
            /\ serverGeneration a1 = serverGeneration a)
        \/ (clientGeneration a1 = clientGeneration a
            /\ serverGeneration a1 = uint32_incr (serverGeneration a))).
Proof.
  destruct ks as [sec app]. cbn [appTrafficSecret_]. intros -> Hd.
  destruct o as [c|t| |].
  - exists a. split; [|left; auto].
    exact (run_chain_appTrafficSecret_ c _).
  - discriminate Hd.
  - eexists. split; [reflexivity|]. right; left. split; reflexivity.
  - eexists. split; [reflexivity|]. right; right. split; reflexivity.
Qed.

(** Over a sequence of calls without [deriveAppTrafficSecrets], short enough
    for the counters not to wrap, neither counter ever goes down. *)
Lemma run_ops_generations_monotone (os : list Op) :
  forall (ks : KeyScheduler) (a : AppTrafficSecret),
    appTrafficSecret_ ks = Some a ->
    existsb derives_traffic os = false ->
    0 <= clientGeneration a ->
    0 <= serverGeneration a ->
    clientGeneration a + Z.of_nat (List.length os) < uint32_modulus ->
    serverGeneration a + Z.of_nat (List.length os) < uint32_modulus ->
    exists a' : AppTrafficSecret,
      appTrafficSecret_ (exec (run_ops os) ks) = Some a'
      /\ clientGeneration a <= clientGeneration a'
         <= clientGeneration a + Z.of_nat (List.length os)
      /\ serverGeneration a <= serverGeneration a'
         <= serverGeneration a + Z.of_nat (List.length os).
Proof.
  induction os as [|o os IH]; intros ks a Ha Hd Hc0 Hs0 Hc Hs.
  - exists a. cbn. repeat split; try assumption; lia.
  - cbn [existsb] in Hd. apply orb_false_iff in Hd. destruct Hd as [Hd Hds].
    cbn [List.length] in *.
    destruct (run_op_generations_step o ks a Ha Hd) as (a1 & Ha1 & Hstep).
    assert (Hb : clientGeneration a <= clientGeneration a1
                 <= clientGeneration a + 1
                 /\ serverGeneration a <= serverGeneration a1
                    <= serverGeneration a + 1).
    { destruct Hstep as [[-> ->]|[[-> ->]|[-> ->]]];
        rewrite ?uint32_incr_small by lia; lia. }
    unfold exec in *. cbn [run_ops]. unfold bind.
    destruct (run_op o ks) as [[e|u] ks1]; cbn [snd] in Ha1.
    + exists a1. cbn [snd]. split; [assumption|]. lia.
    + destruct (IH ks1 a1 Ha1 Hds) as (a' & Ha' & Hb'); try lia.
      exists a'. split; [assumption|]. lia.
Qed.

(** C5.  Both counters are 0 whenever [deriveAppTrafficSecrets] stores the
    traffic secrets, also when it replaces secrets whose counters had
    advanced.  A key update moves the counter of its side by exactly one
    step of a [uint32_t] (plus one below 2^32 - 1, back to 0 from there) and
    leaves the other counter.  The chain methods leave both counters, and a
    call that throws leaves the whole scheduler.  So over any sequence of
    calls without [deriveAppTrafficSecrets], short enough not to wrap,
    neither counter goes down. *)
Theorem generation_counters :
  (forall (transcript master : bytes) (app : option AppTrafficSecret),
     generations
       (exec (deriveAppTrafficSecrets transcript)
             {| secret_ := Some (MasterSecret master);
                appTrafficSecret_ := app |})
     = Some (0, 0))
  /\ (forall (sec : option Secret) (a : AppTrafficSecret),
        let ks := {| secret_ := sec; appTrafficSecret_ := Some a |} in
        generations (exec clientKeyUpdate ks)
        = Some (uint32_incr (clientGeneration a), serverGeneration a)
        /\ generations (exec serverKeyUpdate ks)
           = Some (clientGeneration a, uint32_incr (serverGeneration a)))
  /\ (forall g : Z, 0 <= g < 2 ^ 32 - 1 -> uint32_incr g = g + 1)
  /\ uint32_incr (2 ^ 32 - 1) = 0
  /\ (forall (c : ChainOp) (ks : KeyScheduler),
        generations (exec (run_chain c) ks) = generations ks)
  /\ (forall (o : Op) (ks : KeyScheduler),
        throws (outcome (run_op o) ks) = true -> exec (run_op o) ks = ks)
  /\ (forall (os : list Op) (ks : KeyScheduler) (cg sg : Z),
        generations ks = Some (cg, sg) ->
        existsb derives_traffic os = false ->
        0 <= cg -> 0 <= sg ->
        cg + Z.of_nat (List.length os) < 2 ^ 32 ->
        sg + Z.of_nat (List.length os) < 2 ^ 32 ->
        exists cg' sg' : Z,
          generations (exec (run_ops os) ks) = Some (cg', sg')
          /\ cg <= cg' /\ sg <= sg').
Proof.
  split; [intros; reflexivity|].
  split; [intros sec a ks; split; reflexivity|].
  split; [exact uint32_incr_small|].
  split; [exact uint32_incr_max|].
  split.
  { intros c ks. unfold generations.
    rewrite run_chain_appTrafficSecret_. reflexivity. }
  split; [exact run_op_throws_unchanged|].
  intros os ks cg sg Hg Hd Hc0 Hs0 Hc Hs.
  unfold generations in Hg.
  destruct (appTrafficSecret_ ks) as [a|] eqn:Ha; [|discriminate Hg].
  cbn in Hg. injection Hg as <- <-.
  destruct (run_ops_generations_monotone os ks a Ha Hd Hc0 Hs0 Hc Hs)
    as (a' & Ha' & Hcb & Hsb).
  exists (clientGeneration a'), (serverGeneration a').
  unfold generations. rewrite Ha'. cbn. repeat split; lia.
Qed.

End KeyUpdates.

(** A run of [keyUpdate_generations]: three client updates after the
    derivation return 1, 2, 3. *)
Lemma keyUpdate_generations_witness :
  Z.of_nat 3 < 2 ^ 32
  /\ outcome (@deriveAppTrafficSecrets RecordingKeyDerivation [] ;;
              repeatM 3 (@clientKeyUpdate RecordingKeyDerivation))
             (at_master [])
     = Return [1; 2; 3].
Proof.
  assert (H3 : Z.of_nat 3 < 2 ^ 32) by (simpl; lia).
  split; [exact H3|].
  destruct (@keyUpdate_generations RecordingKeyDerivation 3 [] [] None)
    as (_ & _ & Hsmall & _).
  exact (proj1 (Hsmall H3)).
Defined.

(** At a number of calls that is 2^32 the returned counters are not
    1, 2, ..., n: the last one has wrapped to 0. *)
Lemma clientKeyUpdate_wraps_at (n : nat) :
  Z.of_nat n = 2 ^ 32 ->
  outcome (@deriveAppTrafficSecrets RecordingKeyDerivation [] ;;
           repeatM n (@clientKeyUpdate RecordingKeyDerivation))
          (at_master [])
  <> Return (map Z.of_nat (seq 1 n)).
Proof.
  intros Hn.
  unfold outcome, at_master.
  rewrite (bind_Return _ _ _ _ _ (deriveAppTrafficSecrets_Master _ _ _)).
  rewrite (repeatM_clientKeyUpdate n 0).
  cbn [fst]. intros H. injection H as H.
  assert (Hin : In n (seq 1 n)) by (apply in_seq; lia).
  pose proof (proj1 map_ext_in_iff H n Hin) as Hwrap.
  unfold uint32_of_nat, uint32_modulus in Hwrap.
  rewrite Hn, Z_mod_same_full in Hwrap.
  discriminate Hwrap.
Qed.

(** C4, as stated, fails for the [uint32_t] the counter is: the 2^32-th call
    of [clientKeyUpdate] wraps the counter and returns 0, so 2^32 calls do
    not return 1, 2, ..., 2^32. *)
Lemma clientKeyUpdate_generation_wraps :
  outcome (@deriveAppTrafficSecrets RecordingKeyDerivation [] ;;
           repeatM (Z.to_nat (2 ^ 32))
                   (@clientKeyUpdate RecordingKeyDerivation))
          (at_master [])
  <> Return (map Z.of_nat (seq 1 (Z.to_nat (2 ^ 32)))).
Proof.
  exact (clientKeyUpdate_wraps_at (Z.to_nat (2 ^ 32))
           (Z2Nat.id (2 ^ 32) (Z.pow_nonneg 2 32 Z.le_0_2))).
Qed.

(** C5, as stated, fails: [deriveAppTrafficSecrets] called again while the
    master secret is still held replaces the traffic secrets, and the client
    counter that a key update had moved to 1 is back at 0. *)
Lemma generations_reset_by_rederivation :
  let D := RecordingKeyDerivation in
  generations
    (exec (@deriveAppTrafficSecrets D [] ;; @clientKeyUpdate D)
          (at_master []))
  = Some (1, 0)
  /\ generations
       (exec (@deriveAppTrafficSecrets D [] ;; @clientKeyUpdate D ;;
              @deriveAppTrafficSecrets D [])
             (at_master []))
     = Some (0, 0).
Proof. split; reflexivity. Qed.

(** A run of [generation_counters]: one step of the counter, a call that
    throws, and a sequence of calls over which the counters do not go
    down. *)
Lemma generation_counters_witness :
  let D := RecordingKeyDerivation in
  let ks := exec (@deriveAppTrafficSecrets D []) (at_master []) in
  let os := [ClientKeyUpdate; Chain ClearMasterSecret; ServerKeyUpdate;
             ClientKeyUpdate] in
  uint32_incr 5 = 6
  /\ exec (@run_op D ClientKeyUpdate) fresh = fresh
  /\ exists cg' sg' : Z,
       generations (exec (@run_ops D os) ks) = Some (cg', sg')
       /\ 0 <= cg' /\ 0 <= sg'.
Proof.
  intros D ks os.
  destruct (@generation_counters D)
    as (_ & _ & Hincr & _ & _ & Hthrow & Hmono).
  split; [exact (Hincr 5 ltac:(lia))|].
  split; [exact (Hthrow ClientKeyUpdate fresh eq_refl)|].
  apply (Hmono os ks 0 0); [reflexivity | reflexivity | lia | lia | | ];
    simpl; lia.
Defined.

(** A whole handshake on the recording double: the chain from a fresh
    scheduler, the traffic secrets, the clearing of the master secret, then
    one server update. *)
Example serverKeyUpdate_scenario :
  let D := RecordingKeyDerivation in
  let run :=
    @deriveEarlySecret D [Byte.x61] ;;
    @deriveHandshakeSecret_ecdhe D [Byte.x62] ;;
    @deriveMasterSecret D ;;
    @deriveAppTrafficSecrets D [Byte.x63] ;;
    clearMasterSecret ;;
    @serverKeyUpdate D in
  outcome run fresh = Return 1
  /\ generations (exec run fresh) = Some (0, 1)
  /\ secret_ (exec run fresh) = None.
Proof. repeat split; reflexivity. Qed.

(** * Further properties of the scheduler *)

Section Further.

Context {deriver_ : KeyDerivation}.

(** ** Errors of the traffic slot *)

(** [deriveAppTrafficSecrets] needs the master secret.  On one it keeps the
    chain slot and stores freshly derived traffic secrets with both counters
    at 0, whatever the traffic slot held; on an early or handshake secret it
    throws [bad_get], on the empty slot [OptionalEmptyException], and in both
    cases the scheduler, traffic slot included, stays as it was. *)
Theorem deriveAppTrafficSecrets_needs_master :
  forall (transcript : bytes) (ks : KeyScheduler),
    deriveAppTrafficSecrets transcript ks
    = match secret_ ks with
      | Some (MasterSecret master) =>
          (Return tt,
           {| secret_ := Some (MasterSecret master);
              appTrafficSecret_ :=
                Some {| client := deriveSecret master "c ap traffic" transcript;
                        clientGeneration := 0;
                        server := deriveSecret master "s ap traffic" transcript;
                        serverGeneration := 0 |} |})
      | Some _ => (Throw bad_get, ks)
      | None => (Throw OptionalEmptyException, ks)
      end.
Proof.
  intros transcript [[[s|s|s]|] app]; reflexivity.
Qed.

(** Before any traffic secrets are stored, a key update of either side and
    [getSecret(AppTrafficSecrets)] throw [OptionalEmptyException]; the key
    update leaves the scheduler as it was, and so does any positive number
    of attempted key updates in a row: none of them invents a secret or moves
    a counter. *)
Theorem keyUpdate_without_traffic_secrets :
  forall (sec : option Secret) (n : nat) (s : AppTrafficSecrets),
    let ks := {| secret_ := sec; appTrafficSecret_ := None |} in
    clientKeyUpdate ks = (Throw OptionalEmptyException, ks)
    /\ serverKeyUpdate ks = (Throw OptionalEmptyException, ks)
    /\ getSecret_AppTraffic s ks = Throw OptionalEmptyException
    /\ repeatM (S n) clientKeyUpdate ks = (Throw OptionalEmptyException, ks)
    /\ repeatM (S n) serverKeyUpdate ks = (Throw OptionalEmptyException, ks).
Proof.
  intros sec n s ks. repeat split; reflexivity.
Qed.

(** ** Key updates in any order *)

(** A sequence of key updates on stored traffic secrets: each side has been
    ratcheted, and its counter stepped, as often as the sequence names it. *)
Lemma run_ops_key_updates (os : list Op) :
  forall (sec : option Secret) (a : AppTrafficSecret),
    forallb is_key_update os = true ->
    run_ops os {| secret_ := sec; appTrafficSecret_ := Some a |}
    = (Return tt,
       {| secret_ := sec;
          appTrafficSecret_ :=
            Some {| client := Nat.iter (count_client os) trafficUpdate (client a);
                    clientGeneration :=
                      Nat.iter (count_client os) uint32_incr (clientGeneration a);
                    server := Nat.iter (count_server os) trafficUpdate (server a);
                    serverGeneration :=
                      Nat.iter (count_server os) uint32_incr (serverGeneration a)
                 |} |}).
Proof.
  induction os as [|o os IH]; intros sec a Hk.
  - destruct a; reflexivity.
  - cbn [forallb] in Hk. apply andb_true_iff in Hk. destruct Hk as [Ho Hos].
    destruct o as [c|t| |]; try discriminate Ho.
    + cbn [run_ops run_op]. unfold bind at 1 2.
      rewrite clientKeyUpdate_Some. cbn [ret].
      rewrite (IH _ _ Hos).
      cbn [client clientGeneration server serverGeneration].
      unfold count_client, count_server.
      cbn [filter is_client_update is_server_update List.length].
      rewrite !Nat.iter_succ_r. reflexivity.
    + cbn [run_ops run_op]. unfold bind at 1 2.
      rewrite serverKeyUpdate_Some. cbn [ret].
      rewrite (IH _ _ Hos).
      cbn [client clientGeneration server serverGeneration].
      unfold count_client, count_server.
      cbn [filter is_client_update is_server_update List.length].
      rewrite !Nat.iter_succ_r. reflexivity.
Qed.

(** Key updates of the two sides commute.  A sequence of client and server
    key updates, in whatever order, succeeds on stored traffic secrets and
    leaves each secret ratcheted by
    [expandLabel _ "traffic upd" empty hashLength], and each counter stepped,
    once per update of its side; so two sequences with the same number of
    updates per side leave the same scheduler, and [getSecret] then returns
    the ratcheted secrets. *)
Theorem keyUpdates_interleave :
  forall (os os' : list Op) (sec : option Secret) (a : AppTrafficSecret),
    forallb is_key_update os = true ->
    forallb is_key_update os' = true ->
    count_client os = count_client os' ->
    count_server os = count_server os' ->
    let ks := {| secret_ := sec; appTrafficSecret_ := Some a |} in
    let upd := fun secret : bytes =>
      expandLabel secret "traffic upd" [] hashLength in
    run_ops os ks = run_ops os' ks
    /\ outcome (run_ops os) ks = Return tt
    /\ getSecret_AppTraffic ClientAppTraffic (exec (run_ops os) ks)
       = Return (Nat.iter (count_client os) upd (client a))
    /\ getSecret_AppTraffic ServerAppTraffic (exec (run_ops os) ks)
       = Return (Nat.iter (count_server os) upd (server a))
    /\ generations (exec (run_ops os) ks)
       = Some (Nat.iter (count_client os) uint32_incr (clientGeneration a),
               Nat.iter (count_server os) uint32_incr (serverGeneration a)).
Proof.
  intros os os' sec a Hos Hos' Hc Hs ks upd.
  unfold ks, outcome, exec.
  rewrite (run_ops_key_updates os sec a Hos).
  rewrite (run_ops_key_updates os' sec a Hos').
  rewrite Hc, Hs.
  repeat split; reflexivity.
Qed.

(** A second [deriveAppTrafficSecrets] forgets the first one and every key
    update made since: the scheduler it leaves is the one a single
    derivation with the second transcript leaves. *)
Theorem rederivation_overwrites :
  forall (os : list Op) (t1 t2 master : bytes) (app : option AppTrafficSecret),
    forallb is_key_update os = true ->
    let ks :=
      {| secret_ := Some (MasterSecret master); appTrafficSecret_ := app |} in
    (deriveAppTrafficSecrets t1 ;; run_ops os ;; deriveAppTrafficSecrets t2) ks
    = deriveAppTrafficSecrets t2 ks.
Proof.
  intros os t1 t2 master app Hos ks. unfold ks.
  rewrite (bind_Return _ _ _ _ _ (deriveAppTrafficSecrets_Master _ _ _)).
  rewrite (bind_Return _ _ _ _ _ (run_ops_key_updates os _ _ Hos)).
  rewrite !deriveAppTrafficSecrets_Master. reflexivity.
Qed.

(** ** What a run can and cannot reach *)

(** One call keeps stored traffic secrets stored. *)
Lemma run_op_keeps_traffic_slot (o : Op) (ks : KeyScheduler) :
  appTrafficSecret_ ks <> None ->
  appTrafficSecret_ (exec (run_op o) ks) <> None.
Proof.
  destruct ks as [[[s|s|s]|] [a|]]; destruct o as [[]| | |];
    cbn; intros H; congruence.
Qed.

(** One call fills the traffic slot only if it is [deriveAppTrafficSecrets]
    on a master secret. *)
Lemma run_op_fills_traffic_slot (o : Op) (ks : KeyScheduler) :
  appTrafficSecret_ ks = None ->
  appTrafficSecret_ (exec (run_op o) ks) <> None ->
  phase ks = Master /\ exists t, o = DeriveAppTrafficSecrets t.
Proof.
  destruct ks as [[[s|s|s]|] [a|]]; destruct o as [[]|t| |];
    cbn; intros H H'; try congruence.
  split; [reflexivity|]. exists t. reflexivity.
Qed.

(** One call reaches the master secret only if it is [deriveMasterSecret]. *)
Lemma run_op_reaches_master (o : Op) (ks : KeyScheduler) :
  phase (exec (run_op o) ks) = Master ->
  phase ks = Master \/ o = Chain DeriveMasterSecret.
Proof.
  destruct ks as [[[s|s|s]|] [a|]]; destruct o as [[]|t| |];
    cbn; intros H; try discriminate H; auto.
Qed.

(** The scheduler a sequence leaves, by its first call. *)
Lemma exec_run_ops_cons (o : Op) (os : list Op) (ks : KeyScheduler) :
  exec (run_ops (o :: os)) ks = exec (run_op o) ks
  \/ exec (run_ops (o :: os)) ks = exec (run_ops os) (exec (run_op o) ks).
Proof.
  unfold exec. cbn [run_ops]. unfold bind.
  destruct (run_op o ks) as [[e|u] ks1]; cbn [snd]; auto.
Qed.

(** Traffic secrets, once stored, are never erased: whatever is called
    afterwards, [clearMasterSecret] included and whether or not a call
    throws, the traffic slot stays filled. *)
Theorem traffic_secrets_never_erased :
  forall (os : list Op) (ks : KeyScheduler),
    appTrafficSecret_ ks <> None ->
    appTrafficSecret_ (exec (run_ops os) ks) <> None.
Proof.
  induction os as [|o os IH]; intros ks H.
  - exact H.
  - pose proof (run_op_keeps_traffic_slot o ks H) as H1.
    destruct (exec_run_ops_cons o os ks) as [-> | ->]; auto.
Qed.

Lemma run_ops_reaches_master (os : list Op) :
  forall ks : KeyScheduler,
    phase (exec (run_ops os) ks) = Master ->
    phase ks = Master \/ In (Chain DeriveMasterSecret) os.
Proof.
  induction os as [|o os IH]; intros ks H.
  - left. exact H.
  - destruct (exec_run_ops_cons o os ks) as [E | E]; rewrite E in H.
    + destruct (run_op_reaches_master o ks H) as [Hm | ->];
        [left; exact Hm | right; left; reflexivity].
    + destruct (IH _ H) as [Hm | Hin].
      * destruct (run_op_reaches_master o ks Hm) as [Hm' | ->];
          [left; exact Hm' | right; left; reflexivity].
      * right; right; exact Hin.
Qed.

(** On a scheduler that starts fresh, a master secret is held only after a
    call of [deriveMasterSecret]: no other call, in any sequence, brings the
    chain slot to the master secret. *)
Theorem master_needs_deriveMasterSecret :
  forall os : list Op,
    phase (exec (run_ops os) fresh) = Master ->
    In (Chain DeriveMasterSecret) os.
Proof.
  intros os H.
  destruct (run_ops_reaches_master os fresh H) as [Hm | Hin].
  - discriminate Hm.
  - exact Hin.
Qed.

Lemma run_ops_fills_traffic_slot (os : list Op) :
  forall ks : KeyScheduler,
    appTrafficSecret_ (exec (run_ops os) ks) <> None ->
    appTrafficSecret_ ks <> None
    \/ ((exists t, In (DeriveAppTrafficSecrets t) os)
        /\ (phase ks = Master \/ In (Chain DeriveMasterSecret) os)).
Proof.
  induction os as [|o os IH]; intros ks H.
  - left. exact H.
  - assert (Hstep : appTrafficSecret_ (exec (run_op o) ks) <> None ->
                    appTrafficSecret_ ks <> None
                    \/ ((exists t, In (DeriveAppTrafficSecrets t) (o :: os))
                        /\ (phase ks = Master
                            \/ In (Chain DeriveMasterSecret) (o :: os)))).
    { intros H1. destruct (appTrafficSecret_ ks) as [a|] eqn:Ea.
      - left. discriminate.
      - right. destruct (run_op_fills_traffic_slot o ks Ea H1) as (Hm & t & ->).
        split; [exists t; left; reflexivity | left; exact Hm]. }
    destruct (exec_run_ops_cons o os ks) as [E | E]; rewrite E in H.
    + exact (Hstep H).
    + destruct (IH _ H) as [H1 | ((t & Ht) & Hm)].
      * exact (Hstep H1).
      * right. split; [exists t; right; exact Ht|].
        destruct Hm as [Hm | Hin]; [|right; right; exact Hin].
        destruct (run_op_reaches_master o ks Hm) as [Hm' | ->];
          [left; exact Hm' | right; left; reflexivity].
Qed.

(** On a scheduler that starts fresh, traffic secrets exist only after both
    [deriveMasterSecret] and [deriveAppTrafficSecrets] have been called: no
    sequence of calls stores traffic secrets without them. *)
Theorem traffic_secrets_need_master :
  forall os : list Op,
    appTrafficSecret_ (exec (run_ops os) fresh) <> None ->
    (exists t, In (DeriveAppTrafficSecrets t) os)
    /\ In (Chain DeriveMasterSecret) os.
Proof.
  intros os H.
  destruct (run_ops_fills_traffic_slot os fresh H) as [H0 | (Ht & Hm)].
  - exfalso. apply H0. reflexivity.
  - split; [exact Ht|]. destruct Hm as [Hm | Hin]; [discriminate Hm | exact Hin].
Qed.

(** ** The counters stay 32-bit *)

Lemma uint32_incr_range (g : Z) : 0 <= uint32_incr g < uint32_modulus.
Proof.
  unfold uint32_incr. apply Z.mod_pos_bound. reflexivity.
Qed.

Lemma run_op_generations_in_range (o : Op) (ks : KeyScheduler) :
  generations_in_range ks -> generations_in_range (exec (run_op o) ks).
Proof.
  pose proof uint32_incr_range as Hr.
  assert (H0 : 0 <= 0 < uint32_modulus) by (split; [lia | reflexivity]).
  destruct ks as [[[s|s|s]|] [a|]]; destruct o as [[]|t| |];
    unfold generations_in_range; cbn; intros H; auto;
    destruct H as [Hc Hs]; split; auto.
Qed.

(** Every call keeps both generation counters within [0, 2^32): from a
    scheduler whose counters are in range, and so from a fresh one, no
    sequence of calls leaves a counter out of range. *)
Theorem generations_stay_in_range :
  forall (os : list Op) (ks : KeyScheduler),
    generations_in_range ks ->
    generations_in_range (exec (run_ops os) ks).
Proof.
  induction os as [|o os IH]; intros ks H.
  - exact H.
  - pose proof (run_op_generations_in_range o ks H) as H1.
    destruct (exec_run_ops_cons o os ks) as [-> | ->]; auto.
Qed.

(** ** The two handshake derivations *)

(** Wherever the chain slot is not empty, [deriveHandshakeSecret()] does what
    [deriveHandshakeSecret(ecdhe)] does for an [ecdhe] of [hashLength] zero
    bytes: the same outcome and the same scheduler, on an early secret as on
    a handshake or master secret, where both throw. *)
Theorem deriveHandshakeSecret_overloads_agree :
  forall ks : KeyScheduler,
    secret_ ks <> None ->
    deriveHandshakeSecret ks
    = deriveHandshakeSecret_ecdhe (repeat Byte.x00 (N.to_nat hashLength)) ks.
Proof.
  intros [[[s|s|s]|] app] H; try reflexivity.
  exfalso. apply H. reflexivity.
Qed.

(** On the empty chain slot, [deriveHandshakeSecret(ecdhe)] is
    [deriveEarlySecret] of [hashLength] zero bytes followed by
    [deriveHandshakeSecret(ecdhe)]; for an [ecdhe] of zero bytes it is also
    that [deriveEarlySecret] followed by [deriveHandshakeSecret()]. *)
Theorem deriveHandshakeSecret_bootstrap :
  forall (ecdhe : bytes) (app : option AppTrafficSecret),
    let zeros := repeat Byte.x00 (N.to_nat hashLength) in
    let ks := {| secret_ := None; appTrafficSecret_ := app |} in
    deriveHandshakeSecret_ecdhe ecdhe ks
    = (deriveEarlySecret zeros ;; deriveHandshakeSecret_ecdhe ecdhe) ks
    /\ deriveHandshakeSecret_ecdhe zeros ks
       = (deriveEarlySecret zeros ;; deriveHandshakeSecret) ks.
Proof.
  intros ecdhe app zeros ks. split; reflexivity.
Qed.

(** ** The chain does not look at the traffic slot *)

(** What a chain method returns and what it leaves in the chain slot is the
    same whatever the traffic slot holds, which it hands on untouched; the
    phase-scoped retrievals likewise return the same on any traffic slot. *)
Theorem chain_ignores_traffic_slot :
  forall (c : ChainOp) (sec : option Secret)
         (app app' : option AppTrafficSecret) (transcript : bytes),
    let ks := {| secret_ := sec; appTrafficSecret_ := app |} in
    let ks' := {| secret_ := sec; appTrafficSecret_ := app' |} in
    outcome (run_chain c) ks = outcome (run_chain c) ks'
    /\ secret_ (exec (run_chain c) ks) = secret_ (exec (run_chain c) ks')
    /\ appTrafficSecret_ (exec (run_chain c) ks) = app
    /\ (forall s, getSecret_Early s transcript ks
                  = getSecret_Early s transcript ks')
    /\ (forall s, getSecret_Handshake s transcript ks
                  = getSecret_Handshake s transcript ks')
    /\ (forall s, getSecret_Master s transcript ks
                  = getSecret_Master s transcript ks').
Proof.
  intros c sec app app' transcript ks ks'.
  destruct sec as [[s|s|s]|]; destruct c; repeat split; reflexivity.
Qed.

(** ** A throwing call in a sequence *)


End Further.

(** ** No two uses share a label *)


(** ** Runs of the further properties *)

Lemma keyUpdates_interleave_witness :
  let D := RecordingKeyDerivation in
  let ks := exec (@deriveAppTrafficSecrets D []) (at_master []) in
  @run_ops D [ClientKeyUpdate; ServerKeyUpdate; ClientKeyUpdate] ks
  = @run_ops D [ServerKeyUpdate; ClientKeyUpdate; ClientKeyUpdate] ks.
Proof.
  intros D ks.
  exact (proj1 (@keyUpdates_interleave D
                  [ClientKeyUpdate; ServerKeyUpdate; ClientKeyUpdate]
                  [ServerKeyUpdate; ClientKeyUpdate; ClientKeyUpdate]
                  _ _ eq_refl eq_refl eq_refl eq_refl)).
Defined.

Lemma rederivation_overwrites_witness :
  let D := RecordingKeyDerivation in
  (@deriveAppTrafficSecrets D [Byte.x61] ;;
   @run_ops D [ClientKeyUpdate; ServerKeyUpdate] ;;
   @deriveAppTrafficSecrets D [Byte.x62]) (at_master [])
  = @deriveAppTrafficSecrets D [Byte.x62] (at_master []).
Proof.
  intros D.
  exact (@rederivation_overwrites D [ClientKeyUpdate; ServerKeyUpdate]
           [Byte.x61] [Byte.x62] [] None eq_refl).
Defined.

Lemma traffic_secrets_never_erased_witness :
  let D := RecordingKeyDerivation in
  let ks := exec (@deriveAppTrafficSecrets D []) (at_master []) in
  appTrafficSecret_
    (exec (@run_ops D [Chain ClearMasterSecret; Chain DeriveMasterSecret;
                       ServerKeyUpdate]) ks)
  <> None.
Proof.
  intros D ks.
  apply (@traffic_secrets_never_erased D). simpl. discriminate.
Defined.

Lemma master_needs_deriveMasterSecret_witness :
  let D := RecordingKeyDerivation in
  let os := [Chain (DeriveHandshakeSecretEcdhe [Byte.x61]);
             Chain DeriveMasterSecret] in
  phase (exec (@run_ops D os) fresh) = Master
  /\ In (Chain DeriveMasterSecret) os.
Proof.
  intros D os.
  assert (H : phase (exec (@run_ops D os) fresh) = Master) by reflexivity.
  split; [exact H|].
  exact (@master_needs_deriveMasterSecret D os H).
Defined.

Lemma traffic_secrets_need_master_witness :
  let D := RecordingKeyDerivation in
  let os := [Chain (DeriveHandshakeSecretEcdhe [Byte.x61]);
             Chain DeriveMasterSecret; DeriveAppTrafficSecrets [Byte.x62]] in
  appTrafficSecret_ (exec (@run_ops D os) fresh) <> None
  /\ (exists t, In (DeriveAppTrafficSecrets t) os)
  /\ In (Chain DeriveMasterSecret) os.
Proof.
  intros D os.
  assert (H : appTrafficSecret_ (exec (@run_ops D os) fresh) <> None)
    by (simpl; discriminate).
  split; [exact H|].
  exact (@traffic_secrets_need_master D os H).
Defined.

Lemma generations_stay_in_range_witness :
  let D := RecordingKeyDerivation in
  generations_in_range
    (exec (@run_ops D [Chain (DeriveHandshakeSecretEcdhe []);
                       Chain DeriveMasterSecret; DeriveAppTrafficSecrets [];
                       ClientKeyUpdate; ClientKeyUpdate])
          fresh).
Proof.
  intros D.
  apply (@generations_stay_in_range D). simpl. exact I.
Defined.

Lemma deriveHandshakeSecret_overloads_agree_witness :
  let D := RecordingKeyDerivation in
  let ks := exec (@deriveEarlySecret D [Byte.x61]) fresh in
  @deriveHandshakeSecret D ks
  = @deriveHandshakeSecret_ecdhe D [Byte.x00; Byte.x00] ks.
Proof.
  intros D ks.
  apply (@deriveHandshakeSecret_overloads_agree D ks). simpl. discriminate.
Defined.


